(** * Team details dashboard: tab state, write capability, unlinked-project fetch

    Shallow embedding of the [TeamDetails] component of
    [app/views/teamsDashboard/teamDetails/index.tsx].

    The component keeps a [currentTab] field that it derives from the
    location on mount and that the navigation links overwrite on click, asks
    the API for the projects that are not linked to the team, and renders
    one of three views: a loading indicator, a "team not found" warning or
    the tabbed page. *)

From Stdlib Require Import ZArith Ascii String List Lia.
From stdpp Require Import base decidable option list gmap strings.
Import ListNotations.

Local Open Scope string_scope.
Local Open Scope list_scope.

(** ** The fragments of JavaScript the component relies on *)

Module Js.

(** [s.split(sep)] for a separator of one character: the pieces between
    the occurrences of [sep], in order.  The result is never empty; a
    string without separator comes back as its only piece. *)
Fixpoint split (sep : ascii) (s : string) : list string :=
  match s with
  | EmptyString => [EmptyString]
  | String c rest =>
      if Ascii.eqb c sep then EmptyString :: split sep rest
      else match split sep rest with
           | piece :: pieces => String c piece :: pieces
           | [] => [String c EmptyString]
           end
  end.

(** Whether the character [c] occurs in [s]. *)
Fixpoint occurs (c : ascii) (s : string) : bool :=
  match s with
  | EmptyString => false
  | String c' rest => Ascii.eqb c' c || occurs c rest
  end.

(** [pieces.join(sep)]. *)
Fixpoint join (sep : ascii) (pieces : list string) : string :=
  match pieces with
  | [] => EmptyString
  | [piece] => piece
  | piece :: more => piece +:+ String sep (join sep more)
  end.

(** [arr[i]]: reading outside of the array, and so at a negative index,
    gives [undefined]. *)
Definition index {A : Type} (arr : list A) (i : Z) : option A :=
  if (i <? 0)%Z then None else arr !! Z.to_nat i.

(** [s.endsWith(suffix)]. *)
Definition endsWith (s suffix : string) : bool :=
  let n := String.length s in
  let m := String.length suffix in
  if (m <=? n)%nat then String.eqb (substring (n - m) m s) suffix else false.

(** Truthiness of a value of type [string | undefined]: [undefined] and
    the empty string are falsy. *)
Definition truthy (v : option string) : bool :=
  match v with
  | None => false
  | Some s => negb (String.eqb s "")
  end.

(** [`${v}`] for a value of type [string | undefined]. *)
Definition to_string (v : option string) : string :=
  match v with
  | None => "undefined"
  | Some s => s
  end.

(** [new Set(arr)] followed by [.has(x)]. *)
Definition Set_of (arr : list string) : gset string := list_to_set arr.
Definition has (s : gset string) (x : string) : bool := bool_decide (x ∈ s).

End Js.

(** ** The tab enumeration

    [enum TAB] is a string enumeration: at run time each member is its
    string, and that string is what the path segment is compared with. *)

Module TAB.
Definition TEAM_FEED : string := "team_feed".
Definition TEAM_GOALS : string := "team_goals".
Definition PROJECTS : string := "projects".
Definition MEMBERS : string := "members".
Definition SETTINGS : string := "settings".

(** The members of the enumeration, in declaration order. *)
Definition members : list string :=
  [TEAM_FEED; TEAM_GOALS; PROJECTS; MEMBERS; SETTINGS].
End TAB.

Section TeamDetails.

(** Types declared in [app/types] and in the router, of which the
    component only passes values around. *)
Context {Project Member Route Error AsyncState : Type}.

(** What [AsyncComponent.getDefaultState] returns. *)
Variable super_getDefaultState : AsyncState.

(** [t] of [app/locale]: a message template and its arguments. *)
Variable t : string -> list string -> string.

(** ** Props and state *)

Record Location := { pathname : string }.

Record Params := { orgSlug : string; teamSlug : string }.

(** [recreateRoute(to, {location, routes, params, stepBack})] of
    [app/utils/recreateRoute]. *)
Variable recreateRoute :
  string -> Location -> list Route -> Params -> Z -> string.

Record Team := { slug : string; members : option (list Member) }.

Record Organization := { access : list string }.

(** [props_projects] is the [projects] prop, which the component never
    reads: the projects it shows are those of its state. *)
Record Props := {
  location : Location;
  routes : list Route;
  params : Params;
  team : option Team;
  props_projects : list Project;
  isLoading : bool;
  organization : Organization;
}.

Record State := {
  async_state : AsyncState;
  searchTerm : string;
  projectsPageLinks : string;
  currentTab : string;
  projects : list Project;
  unlinkedProjects : list Project;
}.

(** [setState({currentTab})] and [setState({unlinkedProjects})] merge one
    field into the state. *)
Definition set_currentTab (v : string) (st : State) : State :=
  {| async_state := async_state st;
     searchTerm := searchTerm st;
     projectsPageLinks := projectsPageLinks st;
     currentTab := v;
     projects := projects st;
     unlinkedProjects := unlinkedProjects st |}.

Definition set_unlinkedProjects (v : list Project) (st : State) : State :=
  {| async_state := async_state st;
     searchTerm := searchTerm st;
     projectsPageLinks := projectsPageLinks st;
     currentTab := currentTab st;
     projects := projects st;
     unlinkedProjects := v |}.

Definition getDefaultState : State :=
  {| async_state := super_getDefaultState;
     searchTerm := "";
     projectsPageLinks := "";
     currentTab := TAB.TEAM_FEED;
     projects := [];
     unlinkedProjects := [] |}.

(** ** Component methods as programs

    A method is a tree of the two effects the component has: merging into
    its state and calling [this.api.requestPromise].  The call suspends
    the method until the request settles, so its continuation takes the
    response. *)

Record Request := { path : string; query : string }.

(** How a request settles: the promise is fulfilled with the projects, it
    is rejected, or the call itself throws. *)
Inductive Response :=
| Fulfilled (data : list Project)
| Rejected (e : Error)
| Thrown (e : Error).

Inductive Exn :=
| ApiError (e : Error)
| TypeError (msg : string).

Inductive Prog (A : Type) : Type :=
| Ret (a : A)
| Throw (e : Exn)
| SetState (update : State -> State) (k : Prog A)
| RequestPromise (req : Request) (k : Response -> Prog A).

Arguments Ret {A} a.
Arguments Throw {A} e.
Arguments SetState {A} update k.
Arguments RequestPromise {A} req k.

Fixpoint bind {A B : Type} (p : Prog A) (f : A -> Prog B) : Prog B :=
  match p with
  | Ret a => f a
  | Throw e => Throw e
  | SetState update k => SetState update (bind k f)
  | RequestPromise req k => RequestPromise req (fun r => bind (k r) f)
  end.

(** [try { p } catch { h }]. *)
Fixpoint try_catch {A : Type} (p : Prog A) (h : Exn -> Prog A) : Prog A :=
  match p with
  | Ret a => Ret a
  | Throw e => h e
  | SetState update k => SetState update (try_catch k h)
  | RequestPromise req k => RequestPromise req (fun r => try_catch (k r) h)
  end.

Definition setState (update : State -> State) : Prog unit :=
  SetState update (Ret tt).

(** [await this.api.requestPromise(path, {query: {query}})]: the value of
    the fulfilled promise; a rejection, or an exception thrown by the call
    itself, is raised at the [await]. *)
Definition await_requestPromise (p q : string) : Prog (list Project) :=
  RequestPromise {| path := p; query := q |}
    (fun r => match r with
              | Fulfilled data => Ret data
              | Rejected e => Throw (ApiError e)
              | Thrown e => Throw (ApiError e)
              end).

#[global] Instance Prog_ret : MRet Prog := @Ret.
#[global] Instance Prog_bind : MBind Prog := fun A B f p => bind p f.

(** ** [getCurrentTab] *)

(** [pathnameEnd[pathnameEnd.length - 2]] of [pathname.split('/')]. *)
Definition pathname_segment (pathname : string) : option string :=
  let pathnameEnd := Js.split "/" pathname in
  Js.index pathnameEnd (Z.of_nat (List.length pathnameEnd) - 2)%Z.

(** The [switch] on the segment; [case] compares with [===]. *)
Definition tab_of_segment (pathname : option string) : string :=
  if decide (pathname = Some TAB.TEAM_GOALS) then TAB.TEAM_GOALS
  else if decide (pathname = Some TAB.PROJECTS) then TAB.PROJECTS
  else if decide (pathname = Some TAB.MEMBERS) then TAB.MEMBERS
  else if decide (pathname = Some TAB.SETTINGS) then TAB.SETTINGS
  else TAB.TEAM_FEED.

Definition getCurrentTab (props : Props) : Prog unit :=
  let pathname := pathname_segment (pathname (location props)) in
  let currentTab := tab_of_segment pathname in
  setState (set_currentTab currentTab).

(** ** [fetchUnlinkedProjects] *)

Definition fetchUnlinkedProjects (props : Props) (query : option string)
  : Prog unit :=
  let teamSlug := teamSlug (params props) in
  let orgSlug := orgSlug (params props) in
  try_catch
    (unlinkedProjects ←
       await_requestPromise
         ("/organizations/" +:+ orgSlug +:+ "/projects/")
         (if Js.truthy query
          then "!team:" +:+ teamSlug +:+ " " +:+ Js.to_string query
          else "!team:" +:+ teamSlug);
     setState (set_unlinkedProjects unlinkedProjects))
    (fun _ => Ret tt).

Definition componentDidMount (props : Props) : Prog unit :=
  getCurrentTab props ;;
  fetchUnlinkedProjects props None.

(** ** Rendering

    The rendered tree: an element is a component or tag with its props and
    its children.  Handlers passed as props are programs.  The [api] prop
    of [Projects] and [Members] is the component's own [this.api], the
    client that [RequestPromise] stands for, and is not repeated in the
    props. *)

Inductive Tag :=
| Fragment
| SentryDocumentTitle (title objSlug : string)
| Wrapper
| LoadingIndicator
| EmptyStateWarning
| html_p
| html_div
| StyledPageContent
| Header (team : Team) (teamSlug orgSlug origin : string)
    (projects : list Project)
| Body
| StyledNavTabs
| ListLink (to : string) (index : bool) (isActive : bool)
    (onClick : Prog unit)
| Badge (text : nat) (priority : option string)
| TabContent
| Feed (organization : Organization) (projects : list Project)
| Projects (organization : Organization)
    (projects unlinkedProjects : list Project) (canWrite : bool)
    (teamSlug pageLinks : string)
    (onQueryUpdate : option string -> Prog unit)
| Members (organization : Organization) (teamSlug : string)
    (canWrite : bool) (members : option (list Member)).

#[warnings="-register-all"] Inductive Element :=
| Elem (tag : Tag) (children : list Element)
| Text (s : string)
| Null.

(** Rendering can fail where it reads a property of [null]. *)
Inductive Completion (A : Type) : Type :=
| Normal (a : A)
| Abrupt (e : Exn).

Arguments Normal {A} a.
Arguments Abrupt {A} e.

#[global] Instance Completion_ret : MRet Completion := @Normal.
#[global] Instance Completion_bind : MBind Completion :=
  fun A B f c => match c with
                 | Normal a => f a
                 | Abrupt e => Abrupt e
                 end.

(** [team.slug] and [team.members], where [team] may be [null]. *)
Definition team_slug (team : option Team) : Completion string :=
  match team with
  | Some tm => Normal (slug tm)
  | None => Abrupt (TypeError "Cannot read property 'slug' of null")
  end.

Definition team_members (team : option Team)
  : Completion (option (list Member)) :=
  match team with
  | Some tm => Normal (members tm)
  | None => Abrupt (TypeError "Cannot read property 'members' of null")
  end.

(** The capability computed at the head of [renderTabContent]. *)
Definition canWrite (organization : Organization) : bool :=
  let access := Js.Set_of (access organization) in
  Js.has access "org:write" || Js.has access "team:admin".

Definition renderTabContent (props : Props) (st : State)
  : Completion Element :=
  let organization := organization props in
  let team := team props in
  let canWrite := canWrite organization in
  if decide (currentTab st = TAB.TEAM_FEED) then
    Normal (Elem (Feed organization (projects st)) [])
  else if decide (currentTab st = TAB.TEAM_GOALS) then
    Normal (Elem html_div [Text "Team Goals"])
  else if decide (currentTab st = TAB.PROJECTS) then
    teamSlug ← team_slug team;
    Normal (Elem (Projects organization (projects st) (unlinkedProjects st)
                    canWrite teamSlug (projectsPageLinks st)
                    (fetchUnlinkedProjects props)) [])
  else if decide (currentTab st = TAB.MEMBERS) then
    teamSlug ← team_slug team;
    members ← team_members team;
    Normal (Elem (Members organization teamSlug canWrite members) [])
  else if decide (currentTab st = TAB.SETTINGS) then
    Normal (Elem html_div [Text "Settings"])
  else Normal Null.

Definition renderContent (props : Props) (st : State)
  : Completion Element :=
  let teamSlug := teamSlug (params props) in
  let orgSlug := orgSlug (params props) in
  if isLoading props then Normal (Elem LoadingIndicator [])
  else
    match team props with
    | None =>
        Normal (Elem EmptyStateWarning
                  [Elem html_p [Text (t "Team '%s' was not found" [teamSlug])]])
    | Some team =>
        let currentTab := currentTab st in
        let projects := projects st in
        let baseUrl :=
          recreateRoute "" (location props) (routes props) (params props)
            (-2)%Z in
        let origin :=
          if Js.endsWith baseUrl "all-teams/" then "all-teams"
          else "my-teams" in
        let baseTabUrl := baseUrl +:+ teamSlug +:+ "/" in
        let members := default [] (members team) in
        let active (tab : string) : option string :=
          if decide (currentTab = tab) then Some "active" else None in
        content ← renderTabContent props st;
        Normal
          (Elem StyledPageContent
             [Elem (Header team teamSlug orgSlug origin projects) [];
              Elem Body
                [Elem StyledNavTabs
                   [Elem (ListLink (baseTabUrl +:+ "team-feed/") true
                            (bool_decide (currentTab = TAB.TEAM_FEED))
                            (setState (set_currentTab TAB.TEAM_FEED)))
                      [Text (t "Team Feed" [])];
                    Elem (ListLink (baseTabUrl +:+ "team-goals/") false
                            (bool_decide (currentTab = TAB.TEAM_GOALS))
                            (setState (set_currentTab TAB.TEAM_GOALS)))
                      [Text (t "Team Goals" [])];
                    Elem (ListLink (baseTabUrl +:+ "projects/") false
                            (bool_decide (currentTab = TAB.PROJECTS))
                            (setState (set_currentTab TAB.PROJECTS)))
                      [Text (t "Projects" []);
                       Elem (Badge (List.length projects)
                               (active TAB.PROJECTS)) []];
                    Elem (ListLink (baseTabUrl +:+ "members/") false
                            (bool_decide (currentTab = TAB.MEMBERS))
                            (setState (set_currentTab TAB.MEMBERS)))
                      [Text (t "Members" []);
                       Elem (Badge (List.length members)
                               (active TAB.MEMBERS)) []];
                    Elem (ListLink (baseTabUrl +:+ "settings/") false
                            (bool_decide (currentTab = TAB.SETTINGS))
                            (setState (set_currentTab TAB.SETTINGS)))
                      [Text (t "Settings" [])]];
                 Elem TabContent [content]]])
    end.

Definition render (props : Props) (st : State) : Completion Element :=
  let teamSlug := teamSlug (params props) in
  let orgSlug := orgSlug (params props) in
  content ← renderContent props st;
  Normal
    (Elem Fragment
       [Elem (SentryDocumentTitle (t "Team %s" [teamSlug]) orgSlug) [];
        Elem Wrapper [content]]).

(** ** Running the methods *)

(** A call run to its end against an API that answers every request at
    once: how the call completes, the state it leaves and the requests it
    issued, in order. *)
Fixpoint exec {A : Type} (api : Request -> Response) (p : Prog A) (st : State)
  : Completion A * State * list Request :=
  match p with
  | Ret a => (Normal a, st, [])
  | Throw e => (Abrupt e, st, [])
  | SetState update k => exec api k (update st)
  | RequestPromise req k =>
      let '(c, st', reqs) := exec api (k (api req)) st in
      (c, st', req :: reqs)
  end.

(** The mounted component between two events: its state, the requests in
    flight with the suspended rest of the method that issued each, and the
    exceptions that escaped a handler. *)
Record Component := {
  state : State;
  pending : list (Request * (Response -> Prog unit));
  escaped : list Exn;
}.

(** A handler runs until it ends or suspends on a request. *)
Fixpoint start (p : Prog unit) (c : Component) : Component :=
  match p with
  | Ret _ => c
  | Throw e =>
      {| state := state c; pending := pending c;
         escaped := escaped c ++ [e] |}
  | SetState update k =>
      start k {| state := update (state c); pending := pending c;
                 escaped := escaped c |}
  | RequestPromise req k =>
      {| state := state c; pending := pending c ++ [(req, k)];
         escaped := escaped c |}
  end.

(** The handlers found in a rendered tree, in document order. *)
Definition tag_link (tag : Tag) : list (string * bool * Prog unit) :=
  match tag with
  | ListLink to _ isActive onClick => [(to, isActive, onClick)]
  | _ => []
  end.

Fixpoint links (e : Element) : list (string * bool * Prog unit) :=
  match e with
  | Elem tag children => tag_link tag ++ List.flat_map links children
  | Text _ | Null => []
  end.

Definition tag_onQueryUpdate (tag : Tag) : list (option string -> Prog unit) :=
  match tag with
  | Projects _ _ _ _ _ _ onQueryUpdate => [onQueryUpdate]
  | _ => []
  end.

Fixpoint onQueryUpdates (e : Element) : list (option string -> Prog unit) :=
  match e with
  | Elem tag children =>
      tag_onQueryUpdate tag ++ List.flat_map onQueryUpdates children
  | Text _ | Null => []
  end.

(** What is shown inside [TabContent]. *)
Fixpoint tab_content (e : Element) : list Element :=
  match e with
  | Elem tag children =>
      match tag with TabContent => children | _ => [] end
      ++ List.flat_map tab_content children
  | Text _ | Null => []
  end.

Definition rendered (props : Props) (st : State) : list Element :=
  match render props st with
  | Normal e => [e]
  | Abrupt _ => []
  end.

(** Events: the component mounts; the user clicks the [n]-th link of what
    is on screen; the projects view reports a new filter; the [n]-th request
    in flight settles; the base class stores the outcome of its own load. *)
Inductive Event :=
| Mount
| Click (n : nat)
| QueryUpdate (query : option string)
| Settle (n : nat) (r : Response)
| Inherited (a : AsyncState) (projects : list Project) (pageLinks : string).

(** Modelled from the spec: [AsyncComponent], which loads the endpoints of
    [getEndpoints] and stores the result, is not part of the sources; its
    load "updates only its own piece of state", here the inherited fields
    and [projects] with its page links. *)
Definition inherited_update (a : AsyncState) (projects : list Project)
  (pageLinks : string) (st : State) : State :=
  {| async_state := a;
     searchTerm := searchTerm st;
     projectsPageLinks := pageLinks;
     currentTab := currentTab st;
     projects := projects;
     unlinkedProjects := unlinkedProjects st |}.

Definition step (props : Props) (c : Component) (ev : Event) : Component :=
  match ev with
  | Mount => start (componentDidMount props) c
  | Click n =>
      match List.flat_map links (rendered props (state c)) !! n with
      | Some (_, _, onClick) => start onClick c
      | None => c
      end
  | QueryUpdate query =>
      match List.flat_map onQueryUpdates (rendered props (state c)) with
      | onQueryUpdate :: _ => start (onQueryUpdate query) c
      | [] => c
      end
  | Settle n r =>
      match pending c !! n with
      | Some (_, k) =>
          start (k r)
            {| state := state c; pending := delete n (pending c);
               escaped := escaped c |}
      | None => c
      end
  | Inherited a projects pageLinks =>
      {| state := inherited_update a projects pageLinks (state c);
         pending := pending c; escaped := escaped c |}
  end.

Definition initial : Component :=
  {| state := getDefaultState; pending := []; escaped := [] |}.

(** The states the component can be in: the props may differ from one event
    to the next. *)
Inductive reachable : Component -> Prop :=
| reachable_initial : reachable initial
| reachable_step props c ev :
    reachable c -> reachable (step props c ev).

(** The query of the unlinked-project read as the interface description
    words it: the team exclusion, followed by a space and the filter when a
    filter is given. *)
Definition documented_query (teamSlug : string) (q : option string) : string :=
  match q with
  | None => "!team:" +:+ teamSlug
  | Some f => "!team:" +:+ teamSlug +:+ " " +:+ f
  end.

(** ** [getEndpoints] and [handleSearch]

    The one endpoint the base class loads: the state key under which the
    result is stored, the request, and the [includeAllArgs] option. *)
Record Endpoint := {
  stateKey : string;
  endpoint_request : Request;
  includeAllArgs : bool;
}.

Definition getEndpoints (props : Props) : list Endpoint :=
  let teamSlug := teamSlug (params props) in
  let orgSlug := orgSlug (params props) in
  [{| stateKey := "projects";
      endpoint_request :=
        {| path := "/organizations/" +:+ orgSlug +:+ "/projects/";
           query := "team:" +:+ teamSlug |};
      includeAllArgs := true |}].

Definition handleSearch : Prog unit := Ret tt.

(** The badges and the header of a rendered tree, in document order. *)
Definition tag_badge (tag : Tag) : list (nat * option string) :=
  match tag with
  | Badge text priority => [(text, priority)]
  | _ => []
  end.

Fixpoint badges (e : Element) : list (nat * option string) :=
  match e with
  | Elem tag children => tag_badge tag ++ List.flat_map badges children
  | Text _ | Null => []
  end.

Definition tag_origin (tag : Tag) : list string :=
  match tag with
  | Header _ _ _ origin _ => [origin]
  | _ => []
  end.

Fixpoint origins (e : Element) : list string :=
  match e with
  | Elem tag children => tag_origin tag ++ List.flat_map origins children
  | Text _ | Null => []
  end.

(** A program from which no exception comes out, whatever the responses to
    its requests. *)
Inductive contained {A : Type} : Prog A -> Prop :=
| contained_Ret a : contained (Ret a)
| contained_SetState update k : contained k -> contained (SetState update k)
| contained_RequestPromise req k :
    (forall r, contained (k r)) -> contained (RequestPromise req k).

(** A mounted component from which no exception has escaped, and from whose
    suspended methods none will. *)
Definition component_safe (c : Component) : Prop :=
  escaped c = [] /\
  Forall (fun rk => forall r, contained (rk.2 r)) (pending c).

(** A program keeps a property of the state when each of its updates
    does, whatever the responses to its requests. *)
Inductive keeps (I : State -> Prop) {A : Type} : Prog A -> Prop :=
| keeps_Ret a : keeps I (Ret a)
| keeps_Throw e : keeps I (Throw e)
| keeps_SetState update k :
    (forall st, I st -> I (update st)) -> keeps I k ->
    keeps I (SetState update k)
| keeps_RequestPromise req k :
    (forall r, keeps I (k r)) -> keeps I (RequestPromise req k).

(** The current tab is a member of the enumeration. *)
Definition tab_valid (st : State) : Prop := In (currentTab st) TAB.members.

(** The same of a mounted component: of its state now, and of whatever the
    suspended methods will do to it. *)
Definition component_valid (c : Component) : Prop :=
  tab_valid (state c) /\
  Forall (fun rk => forall r, keeps tab_valid (rk.2 r)) (pending c).

(** The same as [component_valid] for any property [I] of the state. *)
Definition component_keeps (I : State -> Prop) (c : Component) : Prop :=
  I (state c) /\
  Forall (fun rk => forall r, keeps I (rk.2 r)) (pending c).

End TeamDetails.

Arguments Ret {_ _ _ A} a.
Arguments Throw {_ _ _ A} e.
Arguments SetState {_ _ _ A} update k.
Arguments RequestPromise {_ _ _ A} req k.
Arguments Normal {_ A} a.
Arguments Abrupt {_ A} e.

(** ** The tag icon

    [IconTag] of the icon components.  Its props are attributes by name;
    [color] and [size] are taken out of them and the rest is spread over the
    [svg] element after the attributes the component computes, so that an
    attribute of the rest wins over a computed one. *)

Section Icon.

(** [theme.iconSizes] of [app/utils/theme]: the named sizes. *)
Variable iconSizes : gmap string string.

Record Svg := {
  svg_attrs : gmap string string;
  svg_paths : list string;
}.

Definition IconTag (props : gmap string string) : Svg :=
  let providedColor := default "currentColor" (props !! "color") in
  let providedSize := default "sm" (props !! "size") in
  let rest := delete "color" (delete "size" props) in
  let color := providedColor in
  let size := default providedSize (iconSizes !! providedSize) in
  {| svg_attrs :=
       rest ∪ <["viewBox" := "0 0 16 16"]>
                (<["fill" := color]>
                   (<["height" := size]> (<["width" := size]> ∅)));
     svg_paths :=
       ["M3.87,5.7A1.81,1.81,0,1,1,5.69,3.89,1.82,1.82,0,0,1,3.87,5.7Zm0-2.12a.31.31,0,1,0,.32.31A.31.31,0,0,0,3.87,3.58Z";
        "M8,16a.77.77,0,0,1-.53-.21L.24,8.53A.75.75,0,0,1,0,8V.79A.75.75,0,0,1,.77,0H8a.74.74,0,0,1,.53.21l7.22,7.22a.75.75,0,0,1,0,1.06L8.51,15.75A.74.74,0,0,1,8,16ZM1.52,7.69,8,14.15,14.14,8,7.67,1.54H1.52Z"] |}.

End Icon.

(** ** A concrete page

    The team [backend] of the organization [acme], reached from the list of
    my teams.  Projects, members, routes and errors are named by strings;
    messages are left untranslated, with each [%s] of the template replaced
    by the next argument. *)

Fixpoint example_t (template : string) (args : list string) : string :=
  match template with
  | EmptyString => EmptyString
  | String "%" (String "s" rest) =>
      match args with
      | arg :: args' => arg +:+ example_t rest args'
      | [] => String "%" (String "s" (example_t rest []))
      end
  | String c rest => String c (example_t rest args)
  end.

Definition example_recreateRoute (to : string) (location : Location)
  (routes : list string) (params : Params) (stepBack : Z) : string :=
  "/organizations/" +:+ orgSlug params +:+ "/teams/my-teams/".

Definition goals_pathname : string :=
  "/organizations/acme/teams/my-teams/backend/team-goals/".

Definition projects_pathname : string :=
  "/organizations/acme/teams/my-teams/backend/projects/".

Definition example_team : @Team string :=
  {| slug := "backend"; members := Some ["ada"; "grace"] |}.

Definition example_props (pathname : string) (team : option Team)
  (isLoading : bool) : @Props string string string :=
  {| location := {| pathname := pathname |};
     routes := [];
     params := {| orgSlug := "acme"; teamSlug := "backend" |};
     team := team;
     props_projects := [];
     isLoading := isLoading;
     organization := {| access := ["org:read"; "team:admin"] |} |}.

Definition example_state : @State string unit := getDefaultState tt.

Definition example_initial : @Component string string unit :=
  initial tt.

Definition rejecting_api : Request -> @Response string string :=
  fun _ => Rejected "503".

(** The page of the same team with the props of a loaded team. *)
Definition loaded_props : @Props string string string :=
  example_props goals_pathname (Some example_team) false.

(** The component after it has mounted on that page. *)
Definition mounted : @Component string string unit :=
  step example_t example_recreateRoute loaded_props example_initial Mount.

(** Named sizes of a theme, and the props of an icon that asks for the
    large size in red and passes a class name along. *)
Definition example_iconSizes : gmap string string :=
  {[ "sm" := "16px"; "md" := "20px"; "lg" := "24px" ]}.

Definition example_icon_props : gmap string string :=
  {[ "size" := "lg"; "color" := "red"; "className" := "tag" ]}.

(** * Properties *)

Section Properties.

Context {Project Member Route Error AsyncState : Type}.
Variable super_getDefaultState : AsyncState.
Variable t : string -> list string -> string.
Variable recreateRoute :
  string -> Location -> list Route -> Params -> Z -> string.

#[local] Abbreviation Props := (@Props Project Member Route).
#[local] Abbreviation State := (@State Project AsyncState).
#[local] Abbreviation Component := (@Component Project Error AsyncState).
#[local] Abbreviation Response := (@Response Project Error).
#[local] Abbreviation renderTabContent :=
  (@renderTabContent Project Member Route Error AsyncState).
#[local] Abbreviation renderContent :=
  (@renderContent Project Member Route Error AsyncState t recreateRoute).
#[local] Abbreviation render :=
  (@render Project Member Route Error AsyncState t recreateRoute).
#[local] Abbreviation rendered :=
  (@rendered Project Member Route Error AsyncState t recreateRoute).
#[local] Abbreviation step :=
  (@step Project Member Route Error AsyncState t recreateRoute).
#[local] Abbreviation initial :=
  (@initial Project Error AsyncState super_getDefaultState).
#[local] Abbreviation reachable :=
  (@reachable Project Member Route Error AsyncState
     super_getDefaultState t recreateRoute).
#[local] Abbreviation Prog := (@Prog Project Error AsyncState).
#[local] Abbreviation Team := (@Team Member).
#[local] Abbreviation getCurrentTab :=
  (@getCurrentTab Project Member Route Error AsyncState).
#[local] Abbreviation fetchUnlinkedProjects :=
  (@fetchUnlinkedProjects Project Member Route Error AsyncState).
#[local] Abbreviation componentDidMount :=
  (@componentDidMount Project Member Route Error AsyncState).
#[local] Abbreviation setState := (@setState Project Error AsyncState).

Implicit Types (api : Request -> Response) (props : Props) (st : State).
Implicit Types (c : Component) (q : option string) (tm : Team).

(** ** [split] is the inverse of [join] and cuts at every separator *)

Lemma split_nonempty sep s : Js.split sep s <> [].
Proof.
  destruct s as [|c rest]; simpl; [discriminate|].
  destruct (Ascii.eqb c sep); [discriminate|].
  destruct (Js.split sep rest); discriminate.
Qed.

Lemma join_split sep s : Js.join sep (Js.split sep s) = s.
Proof.
  induction s as [|c rest IH]; simpl; [reflexivity|].
  destruct (Ascii.eqb_spec c sep) as [->|Hne].
  - pose proof (split_nonempty sep rest) as Hnil.
    destruct (Js.split sep rest) as [|piece pieces]; [contradiction|].
    simpl in *. now rewrite IH.
  - pose proof (split_nonempty sep rest) as Hnil.
    destruct (Js.split sep rest) as [|piece pieces]; [contradiction|].
    destruct pieces as [|piece' pieces]; simpl in *; now rewrite <- IH.
Qed.

Lemma split_pieces sep s :
  Forall (fun piece => Js.occurs sep piece = false) (Js.split sep s).
Proof.
  induction s as [|c rest IH]; simpl.
  - repeat constructor.
  - destruct (Ascii.eqb c sep) eqn:Hc.
    + constructor; [reflexivity | exact IH].
    + destruct (Js.split sep rest) as [|piece pieces].
      * repeat constructor. simpl. now rewrite Hc.
      * inversion IH; subst. constructor; [|assumption].
        simpl. now rewrite Hc.
Qed.

Example split_empty : Js.split "/" "" = [""].
Proof. reflexivity. Qed.

Example split_trailing : Js.split "/" "/teams/backend/" = [""; "teams"; "backend"; ""].
Proof. reflexivity. Qed.

Example split_doubled : Js.split "/" "a//b" = ["a"; ""; "b"].
Proof. reflexivity. Qed.

(** ** The derived tab *)

(** Without a trailing slash the segment read is the one before the last
    name; a path of one piece has none. *)
Example pathname_segment_no_trailing_slash :
  pathname_segment "/teams/backend/projects" = Some "backend".
Proof. reflexivity. Qed.

Example pathname_segment_one_piece : pathname_segment "projects" = None.
Proof. reflexivity. Qed.

Lemma tab_of_segment_member seg : In (tab_of_segment seg) TAB.members.
Proof.
  unfold tab_of_segment, TAB.members.
  repeat case_decide; simpl; tauto.
Qed.

Lemma tab_of_segment_default seg :
  seg <> Some TAB.TEAM_GOALS -> seg <> Some TAB.PROJECTS ->
  seg <> Some TAB.MEMBERS -> seg <> Some TAB.SETTINGS ->
  tab_of_segment seg = TAB.TEAM_FEED.
Proof.
  intros. unfold tab_of_segment. repeat case_decide; congruence.
Qed.

Lemma pathname_segment_short pathname :
  (List.length (Js.split "/" pathname) < 2)%nat ->
  pathname_segment pathname = None.
Proof.
  intros Hlen. unfold pathname_segment, Js.index.
  destruct (Z.ltb_spec (Z.of_nat (List.length (Js.split "/" pathname)) - 2) 0);
    [reflexivity | lia].
Qed.

Lemma exec_getCurrentTab api props st :
  exec api (getCurrentTab props) st =
  (Normal tt,
   set_currentTab (tab_of_segment (pathname_segment (pathname (location props)))) st,
   []).
Proof. reflexivity. Qed.

(** C1, as the code has it: on a path whose second-to-last segment is
    [team-goals] the derived tab is the feed tab, not the goals tab, because
    the segment is compared with the member [team_goals]; on [projects] it
    is the projects tab and on [unknown] the feed tab. *)
Theorem getCurrentTab_named_segments api props st seg :
  pathname_segment (pathname (location props)) = Some seg ->
  let tab := currentTab (exec api (getCurrentTab props) st).1.2 in
  (seg = "team-goals" -> tab = TAB.TEAM_FEED /\ tab <> TAB.TEAM_GOALS) /\
  (seg = "projects" -> tab = TAB.PROJECTS) /\
  (seg = "unknown" -> tab = TAB.TEAM_FEED).
Proof.
  intros Hseg. rewrite exec_getCurrentTab. cbn [fst snd]. rewrite Hseg.
  split; [|split]; intros ->; vm_compute; [split|..]; congruence.
Qed.

(** C2: [getCurrentTab] always completes normally, without a request, and
    changes only [currentTab]; the tab it stores is a member of the
    enumeration, is determined by the second-to-last segment of the path
    alone, and is the feed tab for every segment other than the four mapped
    members, in particular when the path has no second-to-last segment. *)
Theorem getCurrentTab_total api props st :
  let seg := pathname_segment (pathname (location props)) in
  exists tab,
    exec api (getCurrentTab props) st = (Normal tt, set_currentTab tab st, []) /\
    In tab TAB.members /\ NoDup TAB.members /\
    (forall api' props' st',
        pathname_segment (pathname (location props')) = seg ->
        currentTab (exec api' (getCurrentTab props') st').1.2 = tab) /\
    (~ In seg (map Some [TAB.TEAM_GOALS; TAB.PROJECTS; TAB.MEMBERS; TAB.SETTINGS]) ->
     tab = TAB.TEAM_FEED) /\
    ((List.length (Js.split "/" (pathname (location props))) < 2)%nat ->
     seg = None /\ tab = TAB.TEAM_FEED).
Proof.
  intros seg. exists (tab_of_segment seg). split; [apply exec_getCurrentTab|].
  split; [apply tab_of_segment_member|].
  split; [apply (bool_decide_unpack _); vm_compute; exact I|].
  split; [|split].
  - intros api' props' st' Hseg. rewrite exec_getCurrentTab. cbn [fst snd].
    now rewrite Hseg.
  - intros Hnot. apply tab_of_segment_default; intros Heq; apply Hnot;
      rewrite Heq; simpl; tauto.
  - intros Hlen. apply pathname_segment_short in Hlen. subst seg.
    rewrite Hlen. split; reflexivity.
Qed.

(** ** The write capability *)

Lemma has_Set_of arr x : Js.has (Js.Set_of arr) x = true <-> In x arr.
Proof.
  unfold Js.has, Js.Set_of. rewrite bool_decide_eq_true, elem_of_list_to_set.
  apply list_elem_of_In.
Qed.

(** C3: the capability is true exactly when the access set holds
    ["org:write"] or ["team:admin"]; it is false for the empty set and for
    every set that holds neither. *)
Theorem canWrite_iff organization :
  let granted := Js.Set_of (access organization) in
  (canWrite organization = true <->
   ("org:write" ∈ granted) \/ ("team:admin" ∈ granted)) /\
  (canWrite organization = false <->
   ("org:write" ∉ granted) /\ ("team:admin" ∉ granted)) /\
  (granted = ∅ -> canWrite organization = false).
Proof.
  intros acc. unfold canWrite. fold acc. unfold Js.has.
  assert (Hiff : bool_decide ("org:write" ∈ acc) || bool_decide ("team:admin" ∈ acc) = true
                 <-> "org:write" ∈ acc \/ "team:admin" ∈ acc).
  { rewrite orb_true_iff, !bool_decide_eq_true. reflexivity. }
  split; [exact Hiff|]. split.
  - rewrite <- not_true_iff_false, Hiff. tauto.
  - intros Hempty. rewrite <- not_true_iff_false, Hiff, Hempty.
    intros [H|H]; exact (not_elem_of_empty _ H).
Qed.

(** ** The unlinked-project fetch *)

(** The one request of a call, and the state it leaves by the response. *)
Lemma exec_fetchUnlinkedProjects api props q st :
  exists req,
    path req = "/organizations/" +:+ orgSlug (params props) +:+ "/projects/" /\
    query req =
      (if Js.truthy q
       then "!team:" +:+ teamSlug (params props) +:+ " " +:+ Js.to_string q
       else "!team:" +:+ teamSlug (params props)) /\
    exec api (fetchUnlinkedProjects props q) st =
      (Normal tt,
       match api req with
       | Fulfilled data => set_unlinkedProjects data st
       | Rejected _ | Thrown _ => st
       end,
       [req]).
Proof.
  exists {| path := "/organizations/" +:+ orgSlug (params props) +:+ "/projects/";
            query := if Js.truthy q
                     then "!team:" +:+ teamSlug (params props) +:+ " "
                          +:+ Js.to_string q
                     else "!team:" +:+ teamSlug (params props) |}.
  split; [reflexivity|]. split; [reflexivity|].
  cbn. destruct (api _); reflexivity.
Qed.

Lemma fetchUnlinkedProjects_fulfilled api props q st data :
  (forall req, api req = Fulfilled data) ->
  (exec api (fetchUnlinkedProjects props q) st).1 =
  (Normal tt, set_unlinkedProjects data st).
Proof.
  intros Hapi.
  destruct (exec_fetchUnlinkedProjects api props q st) as (req & _ & _ & ->).
  now rewrite Hapi.
Qed.

(** C4: when the request of [fetchUnlinkedProjects] rejects, or the call to
    the API throws, the method completes normally and the state, its
    [unlinkedProjects] included, is the state before the call; in the
    mounted component the call only adds its request to those in flight,
    and the rejection, whenever it arrives, changes nothing and lets no
    exception escape. *)
Theorem fetchUnlinkedProjects_rejected api props q st :
  (forall req, In req (exec api (fetchUnlinkedProjects props q) st).2 ->
               exists e, api req = Rejected e \/ api req = Thrown e) ->
  exists req k,
    exec api (fetchUnlinkedProjects props q) st = (Normal tt, st, [req]) /\
    unlinkedProjects (exec api (fetchUnlinkedProjects props q) st).1.2 =
      unlinkedProjects st /\
    (forall c, start (fetchUnlinkedProjects props q) c =
               {| state := state c; pending := pending c ++ [(req, k)];
                  escaped := escaped c |}) /\
    (forall e c, start (k (Rejected e)) c = c /\ start (k (Thrown e)) c = c).
Proof.
  intros Hrej.
  destruct (exec_fetchUnlinkedProjects api props q st)
    as (req & Hpath & Hquery & Hexec).
  rewrite Hexec in Hrej. cbn [snd] in Hrej.
  destruct (Hrej req) as [e He]; [now left|].
  exists req. eexists. rewrite Hexec.
  assert (Hst : match api req with
                | Fulfilled data => set_unlinkedProjects data st
                | Rejected _ | Thrown _ => st
                end = st) by (destruct He as [-> | ->]; reflexivity).
  rewrite Hst. split; [reflexivity|]. split; [reflexivity|]. split.
  - intros c. cbn. destruct req as [rp rq]. cbn in Hpath, Hquery. subst rp rq.
    reflexivity.
  - intros e' c. split; reflexivity.
Qed.

Lemma append_space_neq (s : string) : s <> s +:+ " ".
Proof.
  induction s as [|c s IH]; simpl; [discriminate|].
  intros Heq. injection Heq as Heq. exact (IH Heq).
Qed.

(** C9, amended: unless the filter is the empty string,
    [fetchUnlinkedProjects] issues exactly one request, to
    [/organizations/{orgSlug}/projects/], with the documented query:
    [!team:{teamSlug}] when no filter is given and
    [!team:{teamSlug} {filter}] when one is given. *)
Theorem fetchUnlinkedProjects_request api props q st :
  q <> Some "" ->
  exists req,
    (exec api (fetchUnlinkedProjects props q) st).2 = [req] /\
    path req = "/organizations/" +:+ orgSlug (params props) +:+ "/projects/" /\
    query req = documented_query (teamSlug (params props)) q /\
    query req = match q with
                | None => "!team:" +:+ teamSlug (params props)
                | Some f => "!team:" +:+ teamSlug (params props) +:+ " " +:+ f
                end.
Proof.
  intros Hq.
  destruct (exec_fetchUnlinkedProjects api props q st)
    as (req & Hpath & Hquery & Hexec).
  exists req. rewrite Hexec. split; [reflexivity|]. split; [exact Hpath|].
  rewrite Hquery. destruct q as [f|]; [|split; reflexivity].
  simpl. destruct (String.eqb_spec f ""); [congruence | split; reflexivity].
Qed.

(** C10: with the empty string as filter the method is the same program as
    with no filter; the query it sends is [!team:{teamSlug}], which differs
    from the same text followed by a space. *)
Theorem fetchUnlinkedProjects_empty_filter api props st :
  fetchUnlinkedProjects props (Some "") = fetchUnlinkedProjects props None /\
  exec api (fetchUnlinkedProjects props (Some "")) st =
    exec api (fetchUnlinkedProjects props None) st /\
  exists req,
    (exec api (fetchUnlinkedProjects props (Some "")) st).2 = [req] /\
    path req = "/organizations/" +:+ orgSlug (params props) +:+ "/projects/" /\
    query req = "!team:" +:+ teamSlug (params props) /\
    query req <> "!team:" +:+ teamSlug (params props) +:+ " ".
Proof.
  split; [reflexivity|]. split; [reflexivity|].
  destruct (exec_fetchUnlinkedProjects api props (Some "") st)
    as (req & Hpath & Hquery & Hexec).
  exists req. rewrite Hexec. split; [reflexivity|]. split; [exact Hpath|].
  rewrite Hquery. split; [reflexivity|].
  simpl. intros Heq. injection Heq as Heq.
  exact (append_space_neq _ Heq).
Qed.

(** ** Rendering *)

Lemma renderTabContent_present props st tm :
  team props = Some tm ->
  exists e,
    renderTabContent props st = Normal e /\
    links e = [] /\ tab_content e = [] /\
    (onQueryUpdates e = [] \/ onQueryUpdates e = [fetchUnlinkedProjects props]).
Proof.
  intros Hteam. unfold renderTabContent. rewrite Hteam.
  repeat case_decide; eexists; (split; [reflexivity|]);
    cbn; auto.
Qed.

Lemma render_loading props st :
  isLoading props = true ->
  render props st =
  Normal (Elem Fragment
            [Elem (SentryDocumentTitle (t "Team %s" [teamSlug (params props)])
                     (orgSlug (params props))) [];
             Elem Wrapper [Elem LoadingIndicator []]]).
Proof. intros H. unfold render, renderContent. now rewrite H. Qed.

Lemma render_team_absent props st :
  isLoading props = false -> team props = None ->
  render props st =
  Normal (Elem Fragment
            [Elem (SentryDocumentTitle (t "Team %s" [teamSlug (params props)])
                     (orgSlug (params props))) [];
             Elem Wrapper
               [Elem EmptyStateWarning
                  [Elem html_p
                     [Text (t "Team '%s' was not found"
                              [teamSlug (params props)])]]]]).
Proof. intros H1 H2. unfold render, renderContent. now rewrite H1, H2. Qed.

Lemma page_loading props st :
  isLoading props = true ->
  List.flat_map tab_content (rendered props st) = [] /\
  List.flat_map links (rendered props st) = [] /\
  List.flat_map onQueryUpdates (rendered props st) = [].
Proof.
  intros H. unfold rendered. rewrite (render_loading _ _ H). repeat split.
Qed.

Lemma page_team_absent props st :
  isLoading props = false -> team props = None ->
  List.flat_map tab_content (rendered props st) = [] /\
  List.flat_map links (rendered props st) = [] /\
  List.flat_map onQueryUpdates (rendered props st) = [].
Proof.
  intros H1 H2. unfold rendered. rewrite (render_team_absent _ _ H1 H2).
  repeat split.
Qed.

(** C7: while [isLoading] is true, whatever the state and its current tab,
    [renderContent] is the loading indicator alone; the page shows no tab
    content, no link and no projects view. *)
Theorem renderContent_loading props st :
  isLoading props = true ->
  renderContent props st = Normal (Elem LoadingIndicator []) /\
  List.flat_map tab_content (rendered props st) = [] /\
  List.flat_map links (rendered props st) = [] /\
  List.flat_map onQueryUpdates (rendered props st) = [].
Proof.
  intros H. split; [|now apply page_loading].
  unfold renderContent. now rewrite H.
Qed.

(** C8: when loading is over and [team] is absent, [renderContent] is the
    empty-state warning whose paragraph is the message
    [Team '%s' was not found] formatted with the [teamSlug] of the route;
    the page shows no tab content, no link and no projects view. *)
Theorem renderContent_team_absent props st :
  isLoading props = false -> team props = None ->
  renderContent props st =
    Normal (Elem EmptyStateWarning
              [Elem html_p
                 [Text (t "Team '%s' was not found" [teamSlug (params props)])]]) /\
  List.flat_map tab_content (rendered props st) = [] /\
  List.flat_map links (rendered props st) = [] /\
  List.flat_map onQueryUpdates (rendered props st) = [].
Proof.
  intros H1 H2. split; [|now apply page_team_absent].
  unfold renderContent. now rewrite H1, H2.
Qed.


(** With a team, the page has the five links, in this order, and the tab
    content is what [renderTabContent] returns. *)
Lemma links_rendered props st tm :
  isLoading props = false -> team props = Some tm ->
  let baseTabUrl :=
    recreateRoute "" (location props) (routes props) (params props) (-2)%Z
    +:+ teamSlug (params props) +:+ "/" in
  List.flat_map links (rendered props st) =
  [(baseTabUrl +:+ "team-feed/", bool_decide (currentTab st = TAB.TEAM_FEED),
    setState (set_currentTab TAB.TEAM_FEED));
   (baseTabUrl +:+ "team-goals/", bool_decide (currentTab st = TAB.TEAM_GOALS),
    setState (set_currentTab TAB.TEAM_GOALS));
   (baseTabUrl +:+ "projects/", bool_decide (currentTab st = TAB.PROJECTS),
    setState (set_currentTab TAB.PROJECTS));
   (baseTabUrl +:+ "members/", bool_decide (currentTab st = TAB.MEMBERS),
    setState (set_currentTab TAB.MEMBERS));
   (baseTabUrl +:+ "settings/", bool_decide (currentTab st = TAB.SETTINGS),
    setState (set_currentTab TAB.SETTINGS))].
Proof.
  intros H1 H2 baseTabUrl.
  destruct (renderTabContent_present props st tm H2) as (e & He & Hl & _ & _).
  unfold rendered, render, renderContent. rewrite H1, H2, He.
  cbn. rewrite Hl. reflexivity.
Qed.

Lemma onQueryUpdates_rendered props st :
  List.flat_map onQueryUpdates (rendered props st) = [] \/
  List.flat_map onQueryUpdates (rendered props st) = [fetchUnlinkedProjects props].
Proof.
  destruct (isLoading props) eqn:H1.
  { left. now apply page_loading. }
  destruct (team props) as [tm|] eqn:H2.
  2:{ left. now apply page_team_absent. }
  destruct (renderTabContent_present props st tm H2) as (e & He & _ & _ & Hq).
  unfold rendered, render, renderContent. rewrite H1, H2, He. cbn.
  rewrite !app_nil_r. exact Hq.
Qed.

Lemma tab_content_rendered props st tm :
  isLoading props = false -> team props = Some tm ->
  exists e, renderTabContent props st = Normal e /\
            List.flat_map tab_content (rendered props st) = [e].
Proof.
  intros H1 H2.
  destruct (renderTabContent_present props st tm H2) as (e & He & _ & Ht & _).
  exists e. split; [exact He|].
  unfold rendered, render, renderContent. rewrite H1, H2, He. cbn.
  rewrite Ht. reflexivity.
Qed.

(** ** The current tab of the mounted component *)

Lemma keeps_bind I {A B} (p : Prog A) (f : A -> Prog B) :
  keeps I p -> (forall a, keeps I (f a)) -> keeps I (bind p f).
Proof.
  intros Hp Hf. induction Hp; simpl; try constructor; auto.
Qed.

Lemma keeps_try_catch I {A} (p : Prog A) h :
  keeps I p -> (forall e, keeps I (h e)) -> keeps I (try_catch p h).
Proof.
  intros Hp Hh. induction Hp; simpl; try constructor; auto.
Qed.

Lemma keeps_getCurrentTab props : keeps tab_valid (getCurrentTab props).
Proof.
  unfold getCurrentTab, setState. constructor; [|constructor].
  intros st _. apply tab_of_segment_member.
Qed.

Lemma keeps_fetchUnlinkedProjects props q :
  keeps tab_valid (fetchUnlinkedProjects props q).
Proof.
  unfold fetchUnlinkedProjects. apply keeps_try_catch; [|constructor].
  apply keeps_bind.
  - constructor. intros [data|e|e]; constructor.
  - intros data. constructor; [|constructor]. intros st Hst. exact Hst.
Qed.

Lemma keeps_componentDidMount props :
  keeps tab_valid (componentDidMount props).
Proof.
  apply keeps_bind; [apply keeps_getCurrentTab|].
  intros _. apply keeps_fetchUnlinkedProjects.
Qed.

Lemma keeps_click tab :
  In tab TAB.members -> keeps tab_valid (setState (set_currentTab tab)).
Proof. intros Htab. constructor; [|constructor]. intros st _. exact Htab. Qed.

Lemma keeps_links props st :
  Forall (fun l => keeps tab_valid l.2) (List.flat_map links (rendered props st)).
Proof.
  destruct (isLoading props) eqn:H1.
  { destruct (page_loading props st H1) as (_ & -> & _). constructor. }
  destruct (team props) as [tm|] eqn:H2.
  2:{ destruct (page_team_absent props st H1 H2) as (_ & -> & _). constructor. }
  rewrite (links_rendered props st tm H1 H2).
  repeat constructor; apply keeps_click; unfold TAB.members; simpl; tauto.
Qed.

Lemma start_valid p c :
  keeps tab_valid p -> component_valid c -> component_valid (start p c).
Proof.
  intros Hp. revert c. induction Hp; intros c [Hst Hpend]; simpl.
  - split; assumption.
  - split; assumption.
  - apply IHHp. split; simpl; auto.
  - split; simpl; [assumption|].
    apply Forall_app. split; [assumption|]. constructor; [|constructor].
    assumption.
Qed.

Lemma initial_valid : component_valid initial.
Proof.
  split; simpl; [|constructor]. unfold tab_valid, TAB.members. simpl. tauto.
Qed.

Lemma step_valid props c ev :
  component_valid c -> component_valid (step props c ev).
Proof.
  intros Hc. destruct ev as [|n|q|n r|a ps pageLinks];
    cbv beta iota delta [step].
  - apply start_valid; [apply keeps_componentDidMount | exact Hc].
  - destruct (_ !! n) as [[[to act] onClick]|] eqn:Hn; [|exact Hc].
    apply start_valid; [|exact Hc].
    pose proof (keeps_links props (state c)) as Hall.
    rewrite Forall_lookup in Hall. exact (Hall _ _ Hn).
  - destruct (onQueryUpdates_rendered props (state c)) as [-> | ->];
      [exact Hc|].
    apply start_valid; [apply keeps_fetchUnlinkedProjects | exact Hc].
  - destruct (pending c !! n) as [[req k]|] eqn:Hn; [|exact Hc].
    destruct Hc as [Hst Hpend].
    apply start_valid.
    + rewrite Forall_lookup in Hpend. exact (Hpend _ _ Hn r).
    + split; simpl; [exact Hst|]. now apply Forall_delete.
  - destruct Hc as [Hst Hpend]. split; simpl; assumption.
Qed.

Lemma reachable_valid c : reachable c -> component_valid c.
Proof.
  induction 1 as [|props c ev _ IH]; [apply initial_valid|].
  now apply step_valid.
Qed.

(** C5: in every reachable state of the component the current tab is one
    of the five members of the enumeration.  The initial state has the feed
    tab, and mounting (the path derivation), a click on a link, a change of
    filter, a response and the inherited load all keep the property. *)
Theorem currentTab_invariant c :
  reachable c ->
  In (currentTab (state c))
    ["team_feed"; "team_goals"; "projects"; "members"; "settings"].
Proof. intros Hc. exact (proj1 (reachable_valid c Hc)). Qed.

(** C6: when the links are on screen, a click on the [n]-th link, in any
    state of the component and whatever requests are still in flight, sets
    [currentTab] to the [n]-th member of the enumeration and changes
    nothing else: the other fields of the state, the requests in flight and
    the escaped exceptions are as before. *)
Theorem click_sets_currentTab props c tm n tab :
  isLoading props = false -> team props = Some tm ->
  TAB.members !! n = Some tab ->
  let baseTabUrl :=
    recreateRoute "" (location props) (routes props) (params props) (-2)%Z
    +:+ teamSlug (params props) +:+ "/" in
  let c' := step props c (Click n) in
  (exists route,
      ["team-feed/"; "team-goals/"; "projects/"; "members/"; "settings/"] !! n
      = Some route /\
      List.flat_map links (rendered props (state c)) !! n =
      Some (baseTabUrl +:+ route, bool_decide (currentTab (state c) = tab),
            setState (set_currentTab tab))) /\
  c' = {| state := set_currentTab tab (state c); pending := pending c;
          escaped := escaped c |} /\
  currentTab (state c') = tab /\
  async_state (state c') = async_state (state c) /\
  searchTerm (state c') = searchTerm (state c) /\
  projectsPageLinks (state c') = projectsPageLinks (state c) /\
  projects (state c') = projects (state c) /\
  unlinkedProjects (state c') = unlinkedProjects (state c).
Proof.
  intros H1 H2 Hn baseTabUrl c'. subst c'. cbv beta iota delta [step].
  rewrite (links_rendered props (state c) tm H1 H2). fold baseTabUrl.
  do 5 (destruct n as [|n];
        [injection Hn as <-; split; [eexists; split; reflexivity|];
         repeat split|]).
  discriminate Hn.
Qed.

(** * Further properties of the component *)

(** ** Paths and link targets *)

Lemma append_cons ch (s s' : string) :
  String ch s +:+ s' = String ch (s +:+ s').
Proof. reflexivity. Qed.

Lemma append_assoc (a b d : string) : (a +:+ b) +:+ d = a +:+ b +:+ d.
Proof.
  induction a as [|x a IH]; [reflexivity|].
  rewrite !append_cons. now rewrite IH.
Qed.

Lemma split_append sep (a b : string) :
  Js.split sep (a +:+ String sep b) = Js.split sep a ++ Js.split sep b.
Proof.
  induction a as [|ch a IH].
  - change ("" +:+ String sep b) with (String sep b). simpl.
    now rewrite Ascii.eqb_refl.
  - rewrite append_cons. simpl. rewrite IH.
    destruct (Ascii.eqb ch sep); [reflexivity|].
    pose proof (split_nonempty sep a) as Hnil.
    destruct (Js.split sep a); [contradiction | reflexivity].
Qed.

Lemma split_one sep (s : string) :
  Js.occurs sep s = false -> Js.split sep s = [s].
Proof.
  induction s as [|ch s IH]; simpl; [reflexivity|].
  intros Hocc. apply orb_false_iff in Hocc as [Hc Hs].
  rewrite Hc, (IH Hs). reflexivity.
Qed.

Lemma index_app_two {A} (l : list A) (x y : A) :
  Js.index (l ++ [x; y]) (Z.of_nat (List.length (l ++ [x; y])) - 2)%Z = Some x.
Proof.
  unfold Js.index. rewrite length_app. simpl List.length.
  replace (Z.of_nat (List.length l + 2) - 2)%Z with (Z.of_nat (List.length l))
    by lia.
  destruct (Z.ltb_spec (Z.of_nat (List.length l)) 0); [lia|].
  rewrite Nat2Z.id. rewrite lookup_app_r by lia.
  now rewrite Nat.sub_diag.
Qed.

(** X1: of a path [prefix/segment/last], where neither [segment] nor [last]
    holds a slash, the segment that [getCurrentTab] reads is [segment],
    whatever the prefix; [last] is empty for a path that ends with a
    slash. *)
Theorem pathname_segment_of_path (prefix seg last : string) :
  Js.occurs "/" seg = false -> Js.occurs "/" last = false ->
  pathname_segment (prefix +:+ "/" +:+ seg +:+ "/" +:+ last) = Some seg.
Proof.
  intros Hseg Hlast. unfold pathname_segment.
  change ("/" +:+ seg +:+ "/" +:+ last) with (String "/" (seg +:+ String "/" last)).
  rewrite !split_append, (split_one _ _ Hseg), (split_one _ _ Hlast).
  simpl app. apply index_app_two.
Qed.

Lemma pathname_segment_link (baseUrl slug name : string) :
  Js.occurs "/" name = false ->
  pathname_segment ((baseUrl +:+ slug +:+ "/") +:+ name +:+ "/") = Some name.
Proof.
  intros Hname.
  replace ((baseUrl +:+ slug +:+ "/") +:+ name +:+ "/")
    with ((baseUrl +:+ slug) +:+ "/" +:+ name +:+ "/" +:+ "").
  - now apply pathname_segment_of_path.
  - rewrite <- (append_assoc baseUrl slug "/").
    now rewrite (append_assoc (baseUrl +:+ slug) "/" (name +:+ "/")).
Qed.

(** X2: the links to the feed, projects, members and settings tabs lead
    back to the tab they select: mounted on the target of such a link,
    [getCurrentTab] leaves the state that the click on the link leaves. *)
Theorem link_target_selects_tab props st tm n to act onClick :
  isLoading props = false -> team props = Some tm ->
  List.flat_map links (rendered props st) !! n = Some (to, act, onClick) ->
  n <> 1%nat ->
  forall api props' st',
    pathname (location props') = to ->
    exec api (getCurrentTab props') st' = exec api onClick st'.
Proof.
  intros H1 H2 Hn Hgoals api props' st' Hto.
  rewrite (links_rendered props st tm H1 H2) in Hn.
  rewrite exec_getCurrentTab, Hto.
  destruct n as [|[|[|[|[|n]]]]]; try discriminate Hn; try congruence;
    injection Hn as <- _ <-.
  - change "team-feed/" with ("team-feed" +:+ "/").
    rewrite pathname_segment_link by reflexivity. reflexivity.
  - change "projects/" with ("projects" +:+ "/").
    rewrite pathname_segment_link by reflexivity. reflexivity.
  - change "members/" with ("members" +:+ "/").
    rewrite pathname_segment_link by reflexivity. reflexivity.
  - change "settings/" with ("settings" +:+ "/").
    rewrite pathname_segment_link by reflexivity. reflexivity.
Qed.

(** ** Mounting and fetching *)

(** X3: mounting issues exactly one request, the unfiltered read of the
    projects outside the team, and completes normally; it leaves the state
    with the tab of the path and, when the request is fulfilled, with the
    projects received; every other field is as before. *)
Theorem componentDidMount_effect api props st :
  let req := {| path := "/organizations/" +:+ orgSlug (params props) +:+ "/projects/";
                query := "!team:" +:+ teamSlug (params props) |} in
  let tab := tab_of_segment (pathname_segment (pathname (location props))) in
  exec api (componentDidMount props) st =
  (Normal tt,
   match api req with
   | Fulfilled data => set_unlinkedProjects data (set_currentTab tab st)
   | Rejected _ | Thrown _ => set_currentTab tab st
   end,
   [req]).
Proof.
  intros req tab. cbn. fold req. destruct (api req); reflexivity.
Qed.

(** X4: whatever the API answers, [fetchUnlinkedProjects] completes
    normally after one request and touches no field of the state other than
    [unlinkedProjects]. *)
Theorem fetchUnlinkedProjects_frame api props q st :
  exists st' req,
    exec api (fetchUnlinkedProjects props q) st = (Normal tt, st', [req]) /\
    async_state st' = async_state st /\
    searchTerm st' = searchTerm st /\
    projectsPageLinks st' = projectsPageLinks st /\
    currentTab st' = currentTab st /\
    projects st' = projects st.
Proof.
  destruct (exec_fetchUnlinkedProjects api props q st) as (req & _ & _ & Hexec).
  eexists. exists req. split; [exact Hexec|].
  destruct (api req); repeat split.
Qed.

(** A call in the mounted component: the request joins those in flight; its
    continuation stores the projects of a fulfilled response and ignores a
    rejection. *)
Lemma start_fetchUnlinkedProjects props q :
  exists req k,
    (forall c, start (fetchUnlinkedProjects props q) c =
               {| state := state c; pending := pending c ++ [(req, k)];
                  escaped := escaped c |}) /\
    (forall data c, start (k (Fulfilled data)) c =
                    {| state := set_unlinkedProjects data (state c);
                       pending := pending c; escaped := escaped c |}) /\
    (forall e c, start (k (Rejected e)) c = c /\ start (k (Thrown e)) c = c).
Proof.
  eexists. eexists. split; [|split].
  - intros c. cbn. reflexivity.
  - intros data c. reflexivity.
  - intros e c. split; reflexivity.
Qed.

Lemma step_Settle props c n req k r :
  pending c !! n = Some (req, k) ->
  step props c (Settle n r) =
  start (k r) {| state := state c; pending := delete n (pending c);
                 escaped := escaped c |}.
Proof. intros Hn. cbv beta iota delta [step]. now rewrite Hn. Qed.

(** X5: no response is matched with the order of the calls.  Of two calls
    in flight, the projects shown at the end are those of the response that
    arrives last: when the answer to the first call arrives after the
    answer to the second, the older result overwrites the newer one. *)
Theorem last_response_wins props props1 props2 q1 q2 c data1 data2 :
  let n := List.length (pending c) in
  let c2 := start (fetchUnlinkedProjects props q2)
              (start (fetchUnlinkedProjects props q1) c) in
  List.length (pending c2) = S (S n) /\
  unlinkedProjects
    (state (step props2 (step props1 c2 (Settle (S n) (Fulfilled data2)))
              (Settle n (Fulfilled data1)))) = data1 /\
  unlinkedProjects
    (state (step props2 (step props1 c2 (Settle n (Fulfilled data1)))
              (Settle n (Fulfilled data2)))) = data2.
Proof.
  intros n c2.
  destruct (start_fetchUnlinkedProjects props q1) as (r1 & k1 & Hs1 & Hf1 & _).
  destruct (start_fetchUnlinkedProjects props q2) as (r2 & k2 & Hs2 & Hf2 & _).
  subst c2. rewrite Hs1, Hs2. cbn [state pending escaped].
  assert (Hl1 : ((pending c ++ [(r1, k1)]) ++ [(r2, k2)]) !! n = Some (r1, k1)).
  { rewrite lookup_app_l by (rewrite length_app; simpl; lia).
    rewrite lookup_app_r by lia. subst n. now rewrite Nat.sub_diag. }
  assert (Hl2 : ((pending c ++ [(r1, k1)]) ++ [(r2, k2)]) !! S n = Some (r2, k2)).
  { rewrite lookup_app_r by (rewrite length_app; simpl; lia).
    rewrite length_app. simpl. subst n.
    replace (S (List.length (pending c)) - (List.length (pending c) + 1))%nat
      with 0%nat by lia. reflexivity. }
  assert (Hd2 : delete (S n) ((pending c ++ [(r1, k1)]) ++ [(r2, k2)])
                = pending c ++ [(r1, k1)]).
  { replace (S n) with (List.length (pending c ++ [(r1, k1)]))
      by (rewrite length_app; simpl; lia).
    rewrite delete_middle. apply app_nil_r. }
  assert (Hd1 : delete n ((pending c ++ [(r1, k1)]) ++ [(r2, k2)])
                = pending c ++ [(r2, k2)]).
  { rewrite <- app_assoc. simpl. subst n. apply delete_middle. }
  split; [rewrite !length_app; simpl; lia|]. split.
  - erewrite (step_Settle props1) by (cbn [pending]; exact Hl2).
    rewrite Hf2. cbn [state pending escaped]. rewrite Hd2.
    erewrite (step_Settle props2).
    2:{ cbn [pending]. rewrite lookup_app_r by lia. subst n.
        now rewrite Nat.sub_diag. }
    rewrite Hf1. reflexivity.
  - erewrite (step_Settle props1) by (cbn [pending]; exact Hl1).
    rewrite Hf1. cbn [state pending escaped]. rewrite Hd1.
    erewrite (step_Settle props2).
    2:{ cbn [pending]. rewrite lookup_app_r by lia. subst n.
        now rewrite Nat.sub_diag. }
    rewrite Hf2. reflexivity.
Qed.

(** ** What the page shows *)

Lemma renderTabContent_leaf props st tm :
  team props = Some tm ->
  exists e,
    renderTabContent props st = Normal e /\
    badges e = [] /\ origins e = [] /\
    (e = Null <-> ~ In (currentTab st) TAB.members).
Proof.
  intros Hteam. unfold renderTabContent. rewrite Hteam.
  repeat case_decide; eexists; (split; [reflexivity|]);
    (split; [reflexivity|]); (split; [reflexivity|]);
    unfold TAB.members;
    (split;
     [intros Hnull; try discriminate Hnull; intros Hin; simpl in Hin;
      intuition congruence
     |intros Hnot; try reflexivity; exfalso; apply Hnot; simpl;
      intuition congruence]).
Qed.


(** X7: in every reachable state, once loading is over and the team is
    there, the page shows the content of exactly one tab, and it is a
    view, never [null]. *)
Theorem reachable_tab_content props c tm :
  reachable c -> isLoading props = false -> team props = Some tm ->
  exists tag children,
    List.flat_map tab_content (rendered props (state c)) = [Elem tag children].
Proof.
  intros Hc H1 H2. apply reachable_valid in Hc as [Hvalid _].
  destruct (tab_content_rendered props (state c) tm H1 H2) as (e & He & ->).
  destruct (renderTabContent_leaf props (state c) tm H2) as (e' & He' & _ & _ & Hnull).
  rewrite He in He'. injection He' as <-.
  destruct e as [tag children| |].
  - now exists tag, children.
  - exfalso. revert He. unfold renderTabContent. rewrite H2.
    repeat case_decide; discriminate.
  - exfalso. now apply Hnull.
Qed.

(** X8: taken alone, [renderTabContent] reads [team.slug]: without a team
    it throws a [TypeError] exactly on the projects and on the members
    tab. *)
Theorem renderTabContent_without_team props st :
  team props = None ->
  ((exists msg, renderTabContent props st = Abrupt (TypeError msg)) <->
   currentTab st = TAB.PROJECTS \/ currentTab st = TAB.MEMBERS) /\
  ((exists e, renderTabContent props st = Normal e) <->
   currentTab st <> TAB.PROJECTS /\ currentTab st <> TAB.MEMBERS).
Proof.
  intros Hteam.
  assert (Hcases :
    ((currentTab st = TAB.PROJECTS \/ currentTab st = TAB.MEMBERS) /\
     exists msg, renderTabContent props st = Abrupt (TypeError msg)) \/
    (currentTab st <> TAB.PROJECTS /\ currentTab st <> TAB.MEMBERS /\
     exists e, renderTabContent props st = Normal e)).
  { unfold renderTabContent. rewrite Hteam.
    unfold TAB.TEAM_FEED, TAB.TEAM_GOALS, TAB.PROJECTS, TAB.MEMBERS,
      TAB.SETTINGS.
    repeat case_decide; cbn;
      first [left; split; [tauto | eexists; reflexivity]
            |right; split; [congruence | split; [congruence | eexists; reflexivity]]]. }
  destruct Hcases as [[Htab [msg Hmsg]] | (Hp & Hm & [e He])].
  - rewrite Hmsg. split; split.
    + intros _. exact Htab.
    + intros _. now exists msg.
    + intros [e He]. discriminate He.
    + intros [Hp Hm]. destruct Htab; contradiction.
  - rewrite He. split; split.
    + intros [msg Hmsg]. discriminate Hmsg.
    + intros [H|H]; contradiction.
    + intros _. now split.
    + intros _. now exists e.
Qed.

Lemma set_currentTab_same st : set_currentTab (currentTab st) st = st.
Proof. now destruct st. Qed.

(** X9: a link is shown as active exactly when it is the link of the
    current tab, and a click on an active link leaves the state as it
    is. *)
Theorem active_link_is_current props st tm n to act onClick :
  isLoading props = false -> team props = Some tm ->
  List.flat_map links (rendered props st) !! n = Some (to, act, onClick) ->
  (act = true <-> TAB.members !! n = Some (currentTab st)) /\
  (act = true -> forall api, exec api onClick st = (Normal tt, st, [])).
Proof.
  intros H1 H2 Hn. rewrite (links_rendered props st tm H1 H2) in Hn.
  destruct n as [|[|[|[|[|n]]]]]; try discriminate Hn;
    injection Hn as <- <- <-; rewrite bool_decide_eq_true;
    (split; [split; [now intros -> | now intros [= ->]]|]);
    intros <- api; cbn; now rewrite set_currentTab_same.
Qed.

Lemma step_Click props c tm n tab :
  isLoading props = false -> team props = Some tm ->
  TAB.members !! n = Some tab ->
  step props c (Click n) =
  {| state := set_currentTab tab (state c); pending := pending c;
     escaped := escaped c |}.
Proof.
  intros H1 H2 Hn. cbv beta iota delta [step].
  rewrite (links_rendered props (state c) tm H1 H2).
  destruct n as [|[|[|[|[|n]]]]]; try discriminate Hn;
    injection Hn as <-; reflexivity.
Qed.

Lemma step_Click_outside props c n :
  (5 <= n)%nat -> step props c (Click n) = c.
Proof.
  intros Hn. cbv beta iota delta [step].
  destruct (isLoading props) eqn:H1.
  { destruct (page_loading props (state c) H1) as (_ & -> & _).
    now rewrite lookup_nil. }
  destruct (team props) as [tm|] eqn:H2.
  2:{ destruct (page_team_absent props (state c) H1 H2) as (_ & -> & _).
      now rewrite lookup_nil. }
  rewrite (links_rendered props (state c) tm H1 H2).
  rewrite lookup_ge_None_2; [reflexivity | simpl; lia].
Qed.

(** X10: of two clicks on links the last one decides: after a click on the
    link [m] the component is as if the click before it had not happened.
    In particular a second click on the same link changes nothing. *)
Theorem last_click_wins props1 props2 c tm1 tm2 n m :
  isLoading props1 = false -> team props1 = Some tm1 ->
  isLoading props2 = false -> team props2 = Some tm2 ->
  (m < 5)%nat ->
  step props2 (step props1 c (Click n)) (Click m) = step props2 c (Click m).
Proof.
  intros H1 H2 H3 H4 Hm.
  assert (Hmem : exists tab, TAB.members !! m = Some tab).
  { apply lookup_lt_is_Some_2. exact Hm. }
  destruct Hmem as [tabm Hm'].
  rewrite !(step_Click props2 _ tm2 m tabm H3 H4 Hm').
  destruct (TAB.members !! n) as [tabn|] eqn:Hn.
  - rewrite (step_Click props1 c tm1 n tabn H1 H2 Hn). reflexivity.
  - apply lookup_ge_None_1 in Hn. now rewrite step_Click_outside.
Qed.

Lemma rendered_with_team props st tm :
  isLoading props = false -> team props = Some tm ->
  exists e,
    renderTabContent props st = Normal e /\
    List.flat_map badges (rendered props st) =
      [(List.length (projects st),
        if decide (currentTab st = TAB.PROJECTS) then Some "active" else None);
       (List.length (default [] (members tm)),
        if decide (currentTab st = TAB.MEMBERS) then Some "active" else None)] /\
    List.flat_map origins (rendered props st) =
      [if Js.endsWith
            (recreateRoute "" (location props) (routes props) (params props)
               (-2)%Z) "all-teams/"
       then "all-teams" else "my-teams"] /\
    List.flat_map onQueryUpdates (rendered props st) = onQueryUpdates e.
Proof.
  intros H1 H2.
  destruct (renderTabContent_leaf props st tm H2) as (e & He & Hb & Ho & _).
  exists e. split; [exact He|].
  unfold rendered, render, renderContent. rewrite H1, H2, He. cbn.
  rewrite Hb, Ho, !app_nil_r. repeat split.
Qed.

(** X11: the badge of the projects link counts the projects of the state,
    the badge of the members link the members of the team, none when the
    team has no list of members; a badge is marked active exactly on the
    tab of its link. *)
Theorem badges_rendered props st tm :
  isLoading props = false -> team props = Some tm ->
  exists count_members,
    List.flat_map badges (rendered props st) =
      [(List.length (projects st),
        if decide (currentTab st = TAB.PROJECTS) then Some "active" else None);
       (count_members,
        if decide (currentTab st = TAB.MEMBERS) then Some "active" else None)] /\
    (members tm = None -> count_members = 0%nat) /\
    (forall ms, members tm = Some ms -> count_members = List.length ms).
Proof.
  intros H1 H2.
  destruct (rendered_with_team props st tm H1 H2) as (e & _ & Hb & _).
  eexists. split; [exact Hb|].
  split; [intros -> | intros ms ->]; reflexivity.
Qed.

(** [endsWith] holds exactly of the strings made of a prefix and the
    suffix. *)
Lemma length_append (a b : string) :
  String.length (a +:+ b) = (String.length a + String.length b)%nat.
Proof.
  induction a as [|ch a IH]; [reflexivity|].
  rewrite append_cons. simpl. now rewrite IH.
Qed.

Lemma substring_append_skip (a b : string) m :
  substring (String.length a) m (a +:+ b) = substring 0 m b.
Proof.
  induction a as [|ch a IH]; [reflexivity|].
  rewrite append_cons. simpl. exact IH.
Qed.

Lemma substring_all (s : string) : substring 0 (String.length s) s = s.
Proof. induction s as [|ch s IH]; simpl; [reflexivity | now rewrite IH]. Qed.

Lemma substring_split k (s : string) :
  (k <= String.length s)%nat ->
  s = substring 0 k s +:+ substring k (String.length s - k) s.
Proof.
  revert s. induction k as [|k IH]; intros s Hk.
  - rewrite Nat.sub_0_r, substring_all. now destruct s.
  - destruct s as [|ch s]; simpl in Hk; [lia|].
    simpl. rewrite append_cons. f_equal. apply IH. lia.
Qed.

Lemma endsWith_spec (s suffix : string) :
  Js.endsWith s suffix = true <-> exists prefix, s = prefix +:+ suffix.
Proof.
  unfold Js.endsWith. split.
  - destruct (Nat.leb_spec (String.length suffix) (String.length s)) as [Hle|];
      [|discriminate].
    intros Heq. apply String.eqb_eq in Heq.
    exists (substring 0 (String.length s - String.length suffix) s).
    pose proof (substring_split (String.length s - String.length suffix) s)
      as Hs.
    replace (String.length s - (String.length s - String.length suffix))%nat
      with (String.length suffix) in Hs by lia.
    rewrite Heq in Hs. apply Hs. lia.
  - intros [prefix ->]. rewrite length_append.
    destruct (Nat.leb_spec (String.length suffix)
                (String.length prefix + String.length suffix)); [|lia].
    replace (String.length prefix + String.length suffix - String.length suffix)%nat
      with (String.length prefix) by lia.
    rewrite substring_append_skip, substring_all. apply String.eqb_refl.
Qed.

(** X12: the header is told [all-teams] as origin exactly when the route
    two steps back ends with [all-teams/], and [my-teams] in every other
    case. *)
Theorem header_origin props st tm :
  isLoading props = false -> team props = Some tm ->
  let baseUrl :=
    recreateRoute "" (location props) (routes props) (params props) (-2)%Z in
  exists origin,
    List.flat_map origins (rendered props st) = [origin] /\
    (origin = "all-teams" <-> exists prefix, baseUrl = prefix +:+ "all-teams/") /\
    (origin <> "all-teams" -> origin = "my-teams").
Proof.
  intros H1 H2 baseUrl.
  destruct (rendered_with_team props st tm H1 H2) as (e & _ & _ & Ho & _).
  eexists. split; [exact Ho|]. fold baseUrl.
  rewrite <- endsWith_spec.
  destruct (Js.endsWith baseUrl "all-teams/").
  - split; [split; reflexivity|]. intros Hne. now contradiction Hne.
  - split; [split; discriminate|]. intros _. reflexivity.
Qed.

(** X13: the projects view, and with it the callback that changes the
    filter, is on the page only on the projects tab of a loaded team: there
    a change of filter starts [fetchUnlinkedProjects] with the new filter,
    and anywhere else it does nothing. *)
Theorem QueryUpdate_only_on_projects props c q :
  (isLoading props = false /\ is_Some (team props) /\
   currentTab (state c) = TAB.PROJECTS ->
   step props c (QueryUpdate q) = start (fetchUnlinkedProjects props q) c) /\
  (isLoading props = true \/ team props = None \/
   currentTab (state c) <> TAB.PROJECTS ->
   step props c (QueryUpdate q) = c).
Proof.
  cbv beta iota delta [step]. split.
  - intros (H1 & [tm H2] & Htab).
    destruct (rendered_with_team props (state c) tm H1 H2) as (e & He & _ & _ & ->).
    revert He. unfold renderTabContent. rewrite H2, Htab. cbn.
    intros [= <-]. reflexivity.
  - intros Hnot.
    destruct (isLoading props) eqn:H1.
    { now destruct (page_loading props (state c) H1) as (_ & _ & ->). }
    destruct (team props) as [tm|] eqn:H2.
    2:{ now destruct (page_team_absent props (state c) H1 H2) as (_ & _ & ->). }
    destruct Hnot as [Hl | [Ht | Htab]]; try discriminate.
    destruct (rendered_with_team props (state c) tm H1 H2) as (e & He & _ & _ & ->).
    revert He. unfold renderTabContent. rewrite H2.
    repeat case_decide; try contradiction; intros [= <-]; reflexivity.
Qed.

(** ** What never happens in the mounted component *)

Lemma contained_bind {A B} (p : Prog A) (f : A -> Prog B) :
  contained p -> (forall a, contained (f a)) -> contained (bind p f).
Proof. intros Hp Hf. induction Hp; simpl; try constructor; auto. Qed.

Lemma contained_try_catch {A} (p : Prog A) h :
  (forall e, contained (h e)) -> contained (try_catch p h).
Proof. intros Hh. induction p; simpl; try constructor; auto. Qed.

Lemma contained_componentDidMount props : contained (componentDidMount props).
Proof.
  apply contained_bind; [repeat constructor|].
  intros _. apply contained_try_catch. constructor.
Qed.

Lemma contained_links props st :
  Forall (fun l => contained l.2) (List.flat_map links (rendered props st)).
Proof.
  destruct (isLoading props) eqn:H1.
  { destruct (page_loading props st H1) as (_ & -> & _). constructor. }
  destruct (team props) as [tm|] eqn:H2.
  2:{ destruct (page_team_absent props st H1 H2) as (_ & -> & _). constructor. }
  rewrite (links_rendered props st tm H1 H2). repeat constructor.
Qed.

Lemma start_safe p c :
  contained p -> component_safe c -> component_safe (start p c).
Proof.
  intros Hp. revert c. induction Hp; intros c [Hesc Hpend]; simpl.
  - split; assumption.
  - apply IHHp. split; simpl; assumption.
  - split; simpl; [assumption|].
    apply Forall_app. split; [assumption|]. constructor; [|constructor].
    assumption.
Qed.

Lemma step_safe props c ev : component_safe c -> component_safe (step props c ev).
Proof.
  intros Hc. destruct ev as [|n|q|n r|a ps pageLinks];
    cbv beta iota delta [step].
  - apply start_safe; [apply contained_componentDidMount | exact Hc].
  - destruct (_ !! n) as [[[to act] onClick]|] eqn:Hn; [|exact Hc].
    apply start_safe; [|exact Hc].
    pose proof (contained_links props (state c)) as Hall.
    rewrite Forall_lookup in Hall. exact (Hall _ _ Hn).
  - destruct (onQueryUpdates_rendered props (state c)) as [-> | ->];
      [exact Hc|].
    apply start_safe; [|exact Hc]. apply contained_try_catch. constructor.
  - destruct (pending c !! n) as [[req k]|] eqn:Hn; [|exact Hc].
    destruct Hc as [Hesc Hpend]. apply start_safe.
    + rewrite Forall_lookup in Hpend. exact (Hpend _ _ Hn r).
    + split; simpl; [exact Hesc|]. now apply Forall_delete.
  - destruct Hc as [Hesc Hpend]. split; simpl; assumption.
Qed.

(** X14: no exception escapes the component: in every reachable state none
    has escaped a handler, and none will come out of a method that waits
    for its response, whatever the response. *)
Theorem no_exception_escapes c :
  reachable c ->
  escaped c = [] /\
  forall n req k r, pending c !! n = Some (req, k) -> contained (k r).
Proof.
  intros Hc.
  assert (Hsafe : component_safe c).
  { induction Hc as [|props c ev _ IH]; [split; [reflexivity | constructor]|].
    now apply step_safe. }
  destruct Hsafe as [Hesc Hpend]. split; [exact Hesc|].
  intros n req k r Hn. rewrite Forall_lookup in Hpend. exact (Hpend _ _ Hn r).
Qed.

(** X15: only a response changes the list of unlinked projects: mounting,
    a click, a change of filter and the inherited load leave it as it is,
    so a new fetch does not empty the list while its request is in
    flight. *)
Theorem unlinkedProjects_changed_by_responses_only props c ev :
  (forall n r, ev <> Settle n r) ->
  unlinkedProjects (state (step props c ev)) = unlinkedProjects (state c).
Proof.
  intros Hev. destruct ev as [|n|q|n r|a ps pageLinks];
    cbv beta iota delta [step].
  - reflexivity.
  - destruct (_ !! n) as [[[to act] onClick]|] eqn:Hn; [|reflexivity].
    destruct (isLoading props) eqn:H1.
    { destruct (page_loading props (state c) H1) as (_ & Hl & _).
      rewrite Hl in Hn. discriminate Hn. }
    destruct (team props) as [tm|] eqn:H2.
    2:{ destruct (page_team_absent props (state c) H1 H2) as (_ & Hl & _).
        rewrite Hl in Hn. discriminate Hn. }
    rewrite (links_rendered props (state c) tm H1 H2) in Hn.
    destruct n as [|[|[|[|[|n]]]]]; try discriminate Hn;
      injection Hn as _ _ <-; reflexivity.
  - destruct (onQueryUpdates_rendered props (state c)) as [-> | ->];
      reflexivity.
  - exfalso. exact (Hev n r eq_refl).
  - reflexivity.
Qed.

Lemma keeps_frame (I : State -> Prop) props :
  (forall tab st, I st -> I (set_currentTab tab st)) ->
  (forall data st, I st -> I (set_unlinkedProjects data st)) ->
  keeps I (componentDidMount props) /\
  (forall q, keeps I (fetchUnlinkedProjects props q)) /\
  (forall st, Forall (fun l => keeps I l.2)
                (List.flat_map links (rendered props st))).
Proof.
  intros Htab Hdata.
  assert (Hfetch : forall q, keeps I (fetchUnlinkedProjects props q)).
  { intros q. apply keeps_try_catch; [|constructor].
    apply keeps_bind.
    - constructor. intros [data|e|e]; constructor.
    - intros data. constructor; [|constructor]. apply Hdata. }
  split; [|split; [exact Hfetch|]].
  - apply keeps_bind; [|intros _; apply Hfetch].
    constructor; [|constructor]. apply Htab.
  - intros st. destruct (isLoading props) eqn:H1.
    { destruct (page_loading props st H1) as (_ & -> & _). constructor. }
    destruct (team props) as [tm|] eqn:H2.
    2:{ destruct (page_team_absent props st H1 H2) as (_ & -> & _). constructor. }
    rewrite (links_rendered props st tm H1 H2).
    repeat constructor; apply Htab.
Qed.

Lemma start_keeps (I : State -> Prop) p c :
  keeps I p -> component_keeps I c -> component_keeps I (start p c).
Proof.
  intros Hp. revert c. induction Hp; intros c [Hst Hpend]; simpl.
  - split; assumption.
  - split; assumption.
  - apply IHHp. split; simpl; auto.
  - split; simpl; [assumption|].
    apply Forall_app. split; [assumption|]. constructor; [|constructor].
    assumption.
Qed.

(** X16: the search term is never written: in every reachable state it is
    the empty string of the initial state, and [handleSearch] itself does
    nothing. *)
Theorem searchTerm_never_set c :
  reachable c ->
  searchTerm (state c) = "" /\
  forall api st, exec api handleSearch st = (Normal tt, st, []).
Proof.
  intros Hc. split; [|reflexivity].
  set (I := fun st : State => searchTerm st = "").
  assert (Hkeeps : component_keeps I c).
  { induction Hc as [|props c ev _ IH]; [split; [reflexivity | constructor]|].
    destruct (keeps_frame I props) as (Hmount & Hfetch & Hlinks);
      [intros tab st Hst; exact Hst | intros data st Hst; exact Hst|].
    destruct ev as [|n|q|n r|a ps pageLinks]; cbv beta iota delta [step].
    - apply start_keeps; [exact Hmount | exact IH].
    - destruct (_ !! n) as [[[to act] onClick]|] eqn:Hn; [|exact IH].
      apply start_keeps; [|exact IH].
      specialize (Hlinks (state c)). rewrite Forall_lookup in Hlinks.
      exact (Hlinks _ _ Hn).
    - destruct (onQueryUpdates_rendered props (state c)) as [-> | ->];
        [exact IH|].
      apply start_keeps; [apply Hfetch | exact IH].
    - destruct (pending c !! n) as [[req k]|] eqn:Hn; [|exact IH].
      destruct IH as [Hst Hpend]. apply start_keeps.
      + rewrite Forall_lookup in Hpend. exact (Hpend _ _ Hn r).
      + split; simpl; [exact Hst|]. now apply Forall_delete.
    - destruct IH as [Hst Hpend]. split; simpl; assumption. }
  exact (proj1 Hkeeps).
Qed.

(** ** The write capability and the endpoints *)

Lemma canWrite_In organization :
  canWrite organization = true <->
  In "org:write" (access organization) \/ In "team:admin" (access organization).
Proof.
  unfold canWrite. rewrite orb_true_iff, !has_Set_of. reflexivity.
Qed.

(** X17: the capability depends on the grants as a set only, neither on
    their order nor on repetitions, and a grant more never takes it
    away. *)
Theorem canWrite_monotone (o1 o2 : Organization) :
  ((forall x, In x (access o1) -> In x (access o2)) ->
   canWrite o1 = true -> canWrite o2 = true) /\
  ((forall x, In x (access o1) <-> In x (access o2)) ->
   canWrite o1 = canWrite o2).
Proof.
  assert (Hmono : forall a b : Organization,
             (forall x, In x (access a) -> In x (access b)) ->
             canWrite a = true -> canWrite b = true).
  { intros a b Hincl. rewrite !canWrite_In. intros [H|H]; auto. }
  split; [apply Hmono|].
  intros Hsame.
  destruct (canWrite o1) eqn:E1, (canWrite o2) eqn:E2; try reflexivity.
  - rewrite (Hmono o1 o2) in E2; [discriminate | apply Hsame | exact E1].
  - rewrite (Hmono o2 o1) in E1; [discriminate | apply Hsame | exact E2].
Qed.

(** X18: the component has one endpoint, stored under [projects]; the
    unfiltered read of the unlinked projects goes to the same path, and its
    query is the query of the endpoint with [!] in front. *)
Theorem getEndpoints_complement api props st :
  exists ep req,
    getEndpoints props = [ep] /\
    stateKey ep = "projects" /\ includeAllArgs ep = true /\
    query (endpoint_request ep) = "team:" +:+ teamSlug (params props) /\
    (exec api (fetchUnlinkedProjects props None) st).2 = [req] /\
    path req = path (endpoint_request ep) /\
    query req = "!" +:+ query (endpoint_request ep).
Proof.
  destruct (exec_fetchUnlinkedProjects api props None st)
    as (req & Hpath & Hquery & Hexec).
  eexists. exists req. split; [reflexivity|]. rewrite Hexec.
  repeat split; assumption.
Qed.

End Properties.

(** * Properties of the tag icon *)

Section IconProperties.

Variable iconSizes : gmap string string.

Implicit Types (props : gmap string string).

(** The size as the component resolves it: the named size of the theme, or
    the given text when the theme has no such name. *)
Lemma IconTag_attrs props k :
  svg_attrs (IconTag iconSizes props) !! k =
  match delete "color" (delete "size" props) !! k with
  | Some v => Some v
  | None =>
      let size := default "sm" (props !! "size") in
      let size := default size (iconSizes !! size) in
      if decide (k = "viewBox") then Some "0 0 16 16"
      else if decide (k = "fill")
           then Some (default "currentColor" (props !! "color"))
      else if decide (k = "height") then Some size
      else if decide (k = "width") then Some size
      else None
  end.
Proof.
  unfold IconTag. cbn [svg_attrs]. rewrite lookup_union.
  destruct (delete "color" (delete "size" props) !! k) as [v|] eqn:Hrest.
  - now rewrite union_Some_l.
  - rewrite (left_id None _).
    repeat (case_decide; [subst; now simplify_map_eq|]).
    now simplify_map_eq.
Qed.


(** X20: [fill] is the given colour, [currentColor] when none is given,
    unless the caller passes [fill] itself. *)
Theorem IconTag_fill props :
  props !! "fill" = None ->
  svg_attrs (IconTag iconSizes props) !! "fill" =
  Some (default "currentColor" (props !! "color")).
Proof.
  intros Hfill. rewrite IconTag_attrs.
  now rewrite !lookup_delete_ne, Hfill by discriminate.
Qed.



End IconProperties.

(** ** The properties on the concrete page *)

(** On the route of the goals link the component shows the feed tab. *)
Lemma getCurrentTab_named_segments_witness :
  pathname_segment goals_pathname = Some "team-goals" /\
  currentTab
    (exec rejecting_api
       (getCurrentTab (example_props goals_pathname (Some example_team) false))
       example_state).1.2 = "team_feed".
Proof.
  split; [reflexivity|].
  exact (proj1 (proj1 (getCurrentTab_named_segments rejecting_api
                         (example_props goals_pathname (Some example_team) false)
                         example_state "team-goals" eq_refl) eq_refl)).
Defined.

Lemma fetchUnlinkedProjects_rejected_witness :
  (forall req : Request, rejecting_api req = Rejected "503") /\
  exists req k,
    exec rejecting_api
      (fetchUnlinkedProjects (example_props projects_pathname (Some example_team) false)
         (Some "api"))
      (set_unlinkedProjects ["billing"] example_state)
    = (Normal tt, set_unlinkedProjects ["billing"] example_state, [req]) /\
    (forall c : @Component string string unit,
        start (fetchUnlinkedProjects
                 (example_props projects_pathname (Some example_team) false)
                 (Some "api")) c =
        {| state := state c; pending := pending c ++ [(req, k)];
           escaped := escaped c |}) /\
    (forall e (c : @Component string string unit),
        start (k (Rejected e)) c = c /\ start (k (Thrown e)) c = c).
Proof.
  split; [reflexivity|].
  destruct (fetchUnlinkedProjects_rejected rejecting_api
              (example_props projects_pathname (Some example_team) false)
              (Some "api") (set_unlinkedProjects ["billing"] example_state))
    as (req & k & Hexec & _ & Hstart & Hsettle).
  - intros req _. exists "503". left. reflexivity.
  - exists req, k. split; [exact Hexec|]. split; [exact Hstart | exact Hsettle].
Defined.

Lemma currentTab_invariant_witness :
  In (currentTab
        (state (step example_t example_recreateRoute
                  (example_props goals_pathname (Some example_team) false)
                  example_initial Mount)))
    ["team_feed"; "team_goals"; "projects"; "members"; "settings"].
Proof.
  apply (@currentTab_invariant string string string string unit
           tt example_t example_recreateRoute).
  apply reachable_step. apply reachable_initial.
Defined.

Lemma click_sets_currentTab_witness :
  step example_t example_recreateRoute
    (example_props goals_pathname (Some example_team) false)
    example_initial (Click 2)
  = {| state := set_currentTab "projects" (state example_initial);
       pending := pending example_initial;
       escaped := escaped example_initial |}.
Proof.
  exact (proj1 (proj2 (click_sets_currentTab example_t example_recreateRoute
                         (example_props goals_pathname (Some example_team) false)
                         example_initial example_team 2 "projects"
                         eq_refl eq_refl eq_refl))).
Defined.

Lemma renderContent_loading_witness :
  @renderContent string string string string unit
    example_t example_recreateRoute
    (example_props projects_pathname (Some example_team) true)
    (set_currentTab "projects" example_state)
  = Normal (Elem LoadingIndicator []).
Proof.
  exact (proj1 (@renderContent_loading string string string string unit example_t example_recreateRoute
                  (example_props projects_pathname (Some example_team) true)
                  (set_currentTab "projects" example_state) eq_refl)).
Defined.

Lemma renderContent_team_absent_witness :
  @renderContent string string string string unit
    example_t example_recreateRoute
    (example_props projects_pathname None false)
    (set_currentTab "projects" example_state)
  = Normal (Elem EmptyStateWarning
              [Elem html_p [Text "Team 'backend' was not found"]]).
Proof.
  exact (proj1 (@renderContent_team_absent string string string string unit
                  example_t example_recreateRoute
                  (example_props projects_pathname None false)
                  (set_currentTab "projects" example_state) eq_refl eq_refl)).
Defined.

Lemma fetchUnlinkedProjects_request_witness :
  exists req,
    (exec rejecting_api
       (fetchUnlinkedProjects (example_props projects_pathname (Some example_team) false)
          (Some "api"))
       example_state).2 = [req] /\
    path req = "/organizations/acme/projects/" /\
    query req = "!team:backend api".
Proof.
  destruct (fetchUnlinkedProjects_request rejecting_api
              (example_props projects_pathname (Some example_team) false)
              (Some "api") example_state)
    as (req & Hreqs & Hpath & _ & Hquery).
  - discriminate.
  - exists req. split; [exact Hreqs|]. split; [exact Hpath | exact Hquery].
Defined.

(** With the empty string as filter the request is not the documented one:
    the query has no trailing space. *)
Lemma fetchUnlinkedProjects_request_counterexample :
  (exec rejecting_api
     (fetchUnlinkedProjects (example_props projects_pathname (Some example_team) false)
        (Some ""))
     example_state).2
  <> [{| path := "/organizations/acme/projects/";
         query := documented_query "backend" (Some "") |}].
Proof. vm_compute. discriminate. Qed.

(** ** The further properties on the concrete page *)

Lemma pathname_segment_of_path_witness :
  pathname_segment "/organizations/acme/teams/my-teams/backend/members/"
  = Some "members".
Proof.
  exact (pathname_segment_of_path
           "/organizations/acme/teams/my-teams/backend" "members" ""
           eq_refl eq_refl).
Defined.

Lemma link_target_selects_tab_witness :
  exec rejecting_api
    (getCurrentTab (example_props projects_pathname None true)) example_state
  = exec rejecting_api
      (@setState string string unit (set_currentTab "projects")) example_state.
Proof.
  exact (link_target_selects_tab example_t example_recreateRoute
           loaded_props example_state example_team 2
           projects_pathname false (setState (set_currentTab "projects"))
           eq_refl eq_refl eq_refl ltac:(discriminate)
           rejecting_api (example_props projects_pathname None true)
           example_state eq_refl).
Defined.


Lemma reachable_tab_content_witness :
  exists tag children,
    List.flat_map tab_content
      (@rendered string string string string unit
         example_t example_recreateRoute loaded_props (state mounted))
    = [Elem tag children].
Proof.
  apply (@reachable_tab_content string string string string unit
           tt example_t example_recreateRoute loaded_props mounted example_team).
  - apply reachable_step. apply reachable_initial.
  - reflexivity.
  - reflexivity.
Defined.

Lemma renderTabContent_without_team_witness :
  exists msg,
    @renderTabContent string string string string unit
      (example_props projects_pathname None false)
      (set_currentTab "members" example_state)
    = Abrupt (TypeError msg).
Proof.
  apply (renderTabContent_without_team
           (example_props projects_pathname None false)
           (set_currentTab "members" example_state) eq_refl).
  right. reflexivity.
Defined.

Lemma active_link_is_current_witness :
  exec rejecting_api (setState (set_currentTab "team_feed")) example_state
  = (Normal tt, example_state, []).
Proof.
  exact (proj2 (active_link_is_current example_t example_recreateRoute
                  loaded_props example_state example_team 0
                  "/organizations/acme/teams/my-teams/backend/team-feed/" true
                  (setState (set_currentTab "team_feed"))
                  eq_refl eq_refl eq_refl) eq_refl rejecting_api).
Defined.

Lemma last_click_wins_witness :
  step example_t example_recreateRoute loaded_props
    (step example_t example_recreateRoute loaded_props mounted (Click 1))
    (Click 3)
  = step example_t example_recreateRoute loaded_props mounted (Click 3).
Proof.
  apply (last_click_wins example_t example_recreateRoute
           loaded_props loaded_props mounted example_team example_team 1 3);
    [reflexivity | reflexivity | reflexivity | reflexivity | lia].
Defined.

Lemma badges_rendered_witness :
  exists count_members,
    List.flat_map badges
      (@rendered string string string string unit
         example_t example_recreateRoute loaded_props example_state)
    = [(0%nat, None); (count_members, None)] /\
    count_members = 2%nat.
Proof.
  destruct (@badges_rendered string string string string unit
              example_t example_recreateRoute loaded_props example_state
              example_team eq_refl eq_refl)
    as (count & Hbadges & _ & Hcount).
  exists count. split; [exact Hbadges|]. exact (Hcount _ eq_refl).
Defined.

Lemma header_origin_witness :
  exists origin,
    List.flat_map origins
      (@rendered string string string string unit
         example_t example_recreateRoute loaded_props example_state)
    = [origin] /\
    (origin <> "all-teams" -> origin = "my-teams").
Proof.
  destruct (@header_origin string string string string unit
              example_t example_recreateRoute loaded_props example_state
              example_team eq_refl eq_refl)
    as (origin & Horigin & _ & Hother).
  exists origin. split; [exact Horigin | exact Hother].
Defined.

Lemma no_exception_escapes_witness : escaped mounted = [].
Proof.
  apply (@no_exception_escapes string string string string unit
           tt example_t example_recreateRoute mounted).
  apply reachable_step. apply reachable_initial.
Defined.

Lemma unlinkedProjects_changed_by_responses_only_witness :
  unlinkedProjects
    (state (step example_t example_recreateRoute loaded_props mounted (Click 2)))
  = unlinkedProjects (state mounted).
Proof.
  apply (unlinkedProjects_changed_by_responses_only
           example_t example_recreateRoute loaded_props mounted (Click 2)).
  intros n r. discriminate.
Defined.

Lemma searchTerm_never_set_witness : searchTerm (state mounted) = "".
Proof.
  apply (@searchTerm_never_set string string string string unit
           tt example_t example_recreateRoute mounted).
  apply reachable_step. apply reachable_initial.
Defined.


Lemma IconTag_fill_witness :
  svg_attrs (IconTag example_iconSizes example_icon_props) !! "fill"
  = Some "red".
Proof.
  exact (IconTag_fill example_iconSizes example_icon_props eq_refl).
Defined.
